(** * Particle force field of [Canvas] (src/js/context/webgl/Canvas.ts)

    Shallow embedding of the point-cloud simulation of the WebGL canvas:
    [boot], the per-frame [_update], [_vertexUpdate] and the two force
    helpers [attraction] and [repulsion].  JavaScript numbers are modelled
    as real numbers; comparisons are the decidable real comparisons; the
    THREE.js vector operations [length] and [normalize] are written out as
    THREE.js defines them. *)

From Stdlib Require Import Reals Lra Psatz List Arith Lia.
Import ListNotations.

Open Scope R_scope.

(** ** THREE.Vector3 *)

Record vec3 := mkVec3 { vx : R; vy : R; vz : R }.

Definition vzero : vec3 := mkVec3 0 0 0.

(** [Vector3.length]: [Math.sqrt(x * x + y * y + z * z)]. *)
Definition vlength (v : vec3) : R :=
  sqrt (vx v * vx v + vy v * vy v + vz v * vz v).

(** [Vector3.normalize]: [this.divideScalar(this.length() || 1)], and
    [divideScalar(s)] is [multiplyScalar(1 / s)].  A zero length is falsy,
    so the zero vector is divided by 1. *)
Definition vnormalize (v : vec3) : vec3 :=
  let l := vlength v in
  let s := if Req_EM_T l 0 then 1 else l in
  mkVec3 (vx v * (1 / s)) (vy v * (1 / s)) (vz v * (1 / s)).

(** ** Data model *)

(** A geometry vertex of the point cloud, extended in [boot] with the
    fields [velocity], [force], [friction] and [mass]. *)
Record vertex := mkVertex {
  px : R; py : R; pz : R;
  velocity : vec3;
  force : vec3;
  friction : R;
  mass : R
}.

Definition set_force (v : vertex) (f : vec3) : vertex :=
  mkVertex (px v) (py v) (pz v) (velocity v) f (friction v) (mass v).

(** [_forcePhase: 'attraction' | 'repulsion']. *)
Inductive phase := attraction_phase | repulsion_phase.

(** [defaults] of Canvas.ts. *)
Definition defaults_len : nat := 10000.
Definition defaults_depth : R := 0.
Definition defaults_speed_horizontal : R := 1.
Definition defaults_speed_vertical : R := 1.5.

(** The fields of [Canvas] the simulation uses.  [_tick] starts as
    [null]: [None]. *)
Record canvas := mkCanvas {
  vertices : list vertex;
  posOfForce : vec3;
  tick : option R;
  forcePhase : phase;
  frameCount : nat
}.

(** [ToNumber] of [_tick]: [null] is 0. *)
Definition num_of (t : option R) : R :=
  match t with None => 0 | Some r => r end.

(** ** Force helpers *)

(** [bAmCloseEnough]: only a positive radius can exclude a vertex. *)
Definition bAmCloseEnough (radius length : R) : bool :=
  if Rgt_dec radius 0 then
    if Rgt_dec length radius then false else true
  else true.

(** [diff = vertex - posOfForce]. *)
Definition diff_of (v : vertex) (forceX forceY forceZ : R) : vec3 :=
  mkVec3 (px v - forceX) (py v - forceY) (pz v - forceZ).

(** The body of the in-radius branch of [attraction], with [pct] as
    computed there. *)
Definition attraction_apply (v : vertex) (diff : vec3) (scale pct : R) : vertex :=
  let d := vnormalize diff in
  let f := force v in
  let fx := vx f - vx d * scale * pct in
  let fy := vy f - vy d * scale * pct in
  let fz := fy - vy d * scale * pct in
  set_force v (mkVec3 fx fy fz).

(** [attraction(vertex, forceX, forceY, forceZ, radius, scale)], for a
    nonzero radius: [length / radius] is then the real quotient.  The
    radius-0 case is [attraction_js] below. *)
Definition attraction (v : vertex) (forceX forceY forceZ radius scale : R) : vertex :=
  let diff := diff_of v forceX forceY forceZ in
  let length := vlength diff in
  if bAmCloseEnough radius length then
    let pct := 1 - (length / radius) in
    attraction_apply v diff scale pct
  else v.

(** The body of the in-radius branch of [repulsion]. *)
Definition repulsion_apply (v : vertex) (diff : vec3) (scale pct : R) : vertex :=
  let d := vnormalize diff in
  let f := force v in
  let fx := vx f + vx d * scale * pct in
  let fy := vy f + vy d * scale * pct in
  let fz := fy + vy d * scale * pct in
  set_force v (mkVec3 fx fy fz).

(** [repulsion(vertex, forceX, forceY, forceZ, radius, scale)], for a
    nonzero radius (see [repulsion_js] for any radius). *)
Definition repulsion (v : vertex) (forceX forceY forceZ radius scale : R) : vertex :=
  let diff := diff_of v forceX forceY forceZ in
  let length := vlength diff in
  if bAmCloseEnough radius length then
    let pct := 1 - (length / radius) in
    repulsion_apply v diff scale pct
  else v.

(** ** The force helpers over JavaScript numbers

    [attraction] and [repulsion] above divide with the real division, which
    is the JavaScript one for a nonzero radius, the only radii
    [_vertexUpdate] passes.  For any radius, including 0, the force a
    helper writes is computed below over the values a JavaScript number can
    take there: a finite value, [Infinity], [-Infinity] or [NaN].  Zeros
    are unsigned: a zero divisor is the literal [+0]. *)

Inductive jsnum : Type :=
| Fin (r : R)
| PInf
| NInf
| NaN.

Definition is_fin (a : jsnum) : bool :=
  match a with Fin _ => true | _ => false end.

(** Unary minus. *)
Definition js_neg (a : jsnum) : jsnum :=
  match a with
  | Fin r => Fin (- r)
  | PInf => NInf
  | NInf => PInf
  | NaN => NaN
  end.

(** Addition: [NaN] absorbs, [Infinity + -Infinity] is [NaN]. *)
Definition js_add (a b : jsnum) : jsnum :=
  match a, b with
  | NaN, _ | _, NaN => NaN
  | Fin x, Fin y => Fin (x + y)
  | PInf, NInf | NInf, PInf => NaN
  | PInf, _ | _, PInf => PInf
  | NInf, _ | _, NInf => NInf
  end.

Definition js_sub (a b : jsnum) : jsnum := js_add a (js_neg b).

(** The infinity with the sign of a nonzero [r]. *)
Definition inf_of_sign (r : R) : jsnum :=
  if Rlt_dec r 0 then NInf else PInf.

(** Multiplication: [0 * Infinity] is [NaN]. *)
Definition js_mul (a b : jsnum) : jsnum :=
  match a, b with
  | NaN, _ | _, NaN => NaN
  | Fin x, Fin y => Fin (x * y)
  | Fin x, PInf | PInf, Fin x =>
      if Req_EM_T x 0 then NaN else inf_of_sign x
  | Fin x, NInf | NInf, Fin x =>
      if Req_EM_T x 0 then NaN else js_neg (inf_of_sign x)
  | PInf, PInf | NInf, NInf => PInf
  | PInf, NInf | NInf, PInf => NInf
  end.

(** Division: [x / 0] is [Infinity] with the sign of [x], [0 / 0] is
    [NaN]. *)
Definition js_div (a b : jsnum) : jsnum :=
  match a, b with
  | NaN, _ | _, NaN => NaN
  | Fin x, Fin y =>
      if Req_EM_T y 0 then (if Req_EM_T x 0 then NaN else inf_of_sign x)
      else Fin (x / y)
  | Fin _, PInf | Fin _, NInf => Fin 0
  | PInf, Fin y => if Rlt_dec y 0 then NInf else PInf
  | NInf, Fin y => if Rlt_dec y 0 then PInf else NInf
  | _, _ => NaN
  end.

Record jsvec3 := mkJsVec3 { jx : jsnum; jy : jsnum; jz : jsnum }.

Definition lift3 (u : vec3) : jsvec3 :=
  mkJsVec3 (Fin (vx u)) (Fin (vy u)) (Fin (vz u)).

(** [const pct = 1 - (length / radius)]. *)
Definition pct_js (length radius : R) : jsnum :=
  js_sub (Fin 1) (js_div (Fin length) (Fin radius)).

(** The [vertex.force] left by [attraction(vertex, forceX, forceY, forceZ,
    radius, scale)]; [diff], [length] and [diff.normalize()] are finite,
    [pct] and the three force writes are JavaScript numbers.  [force.z] is
    written from the new [force.y].  Nothing but [vertex.force] is
    written. *)
Definition attraction_js (v : vertex) (forceX forceY forceZ radius scale : R) : jsvec3 :=
  let diff := diff_of v forceX forceY forceZ in
  let length := vlength diff in
  let f := force v in
  if bAmCloseEnough radius length then
    let pct := pct_js length radius in
    let d := vnormalize diff in
    let fx := js_sub (Fin (vx f)) (js_mul (Fin (vx d * scale)) pct) in
    let fy := js_sub (Fin (vy f)) (js_mul (Fin (vy d * scale)) pct) in
    let fz := js_sub fy (js_mul (Fin (vy d * scale)) pct) in
    mkJsVec3 fx fy fz
  else lift3 f.

(** The [vertex.force] left by [repulsion(...)]. *)
Definition repulsion_js (v : vertex) (forceX forceY forceZ radius scale : R) : jsvec3 :=
  let diff := diff_of v forceX forceY forceZ in
  let length := vlength diff in
  let f := force v in
  if bAmCloseEnough radius length then
    let pct := pct_js length radius in
    let d := vnormalize diff in
    let fx := js_add (Fin (vx f)) (js_mul (Fin (vx d * scale)) pct) in
    let fy := js_add (Fin (vy f)) (js_mul (Fin (vy d * scale)) pct) in
    let fz := js_add fy (js_mul (Fin (vy d * scale)) pct) in
    mkJsVec3 fx fy fz
  else lift3 f.

(** ** [_vertexUpdate] *)

(** [vertex.force.set((force - velocity * friction) * 0.41 * deltaTime)]. *)
Definition recombine_force (v : vertex) (deltaTime : R) : vec3 :=
  let f := force v in
  let u := velocity v in
  mkVec3 ((vx f - vx u * friction v) * 0.41 * deltaTime)
         ((vy f - vy u * friction v) * 0.41 * deltaTime)
         ((vz f - vz u * friction v) * 0.41 * deltaTime).

(** The two helper calls selected by [_forcePhase]. *)
Definition apply_phase (ph : phase) (v : vertex) (p : vec3) : vertex :=
  match ph with
  | attraction_phase =>
      let v1 := attraction v (vx p) (vy p) (vz p) 900 0.02 in
      repulsion v1 (vx p * 0.5) (vy p * 0.5) (vz p * 0.5) 200 0.02
  | repulsion_phase =>
      let v1 := attraction v (vx p * -0.5) (vy p * -0.5) (vz p * -0.5) 500 0.02 in
      repulsion v1 (vx p) (vy p) (vz p) 300 0.02
  end.

(** [velocity += force * 0.41 * deltaTime; position += velocity * deltaTime]. *)
Definition integrate (v : vertex) (deltaTime : R) : vertex :=
  let f := force v in
  let u := velocity v in
  let u' := mkVec3 (vx u + vx f * 0.41 * deltaTime)
                   (vy u + vy f * 0.41 * deltaTime)
                   (vz u + vz f * 0.41 * deltaTime) in
  mkVertex (px v + vx u' * deltaTime) (py v + vy u' * deltaTime)
           (pz v + vz u' * deltaTime) u' f (friction v) (mass v).

(** The six wrap-around tests, in the order of the source, against
    [this.ww], [this.wh] and [defaults.depth]. *)
Definition wrap (ww wh : R) (v : vertex) : vertex :=
  let x1 := if Rgt_dec (px v) ww then - ww else px v in
  let y1 := if Rgt_dec (py v) wh then - wh else py v in
  let z1 := if Rgt_dec (pz v) defaults_depth then - defaults_depth else pz v in
  let x2 := if Rlt_dec x1 (- ww) then ww else x1 in
  let y2 := if Rlt_dec y1 (- wh) then wh else y1 in
  let z2 := if Rlt_dec z1 (- defaults_depth) then defaults_depth else z1 in
  mkVertex x2 y2 z2 (velocity v) (force v) (friction v) (mass v).

(** [_vertexUpdate(vertex, posOfForce, deltaTime)], reading
    [this._forcePhase], [this.ww] and [this.wh]. *)
Definition vertexUpdate (ph : phase) (ww wh : R) (v : vertex) (p : vec3)
    (deltaTime : R) : vertex :=
  let v0 := set_force v (recombine_force v deltaTime) in
  let v1 := apply_phase ph v0 p in
  wrap ww wh (integrate v1 deltaTime).

(** ** [_update] *)

(** What one frame reads from outside: [this._clock.getDelta()] (wall-clock
    seconds since the previous read), the ticker's [deltaTime], and the
    store's [windowWidth] and [windowHeight]. *)
Record frame_env := mkEnv {
  clockDelta : R;
  deltaTime : R;
  env_ww : R;
  env_wh : R
}.

(** The attractor position for the accumulator value [t]. *)
Definition posOfForce_at (t ww wh deltaTime : R) : vec3 :=
  if Rlt_dec t 1 then
    mkVec3 (cos (t * defaults_speed_horizontal) * 50 * deltaTime)
           (sin (t * defaults_speed_vertical) * 50 * deltaTime) 0
  else
    mkVec3 (cos (t * defaults_speed_horizontal) * ww * -0.5 * deltaTime)
           (sin (t * defaults_speed_vertical) * wh * 0.5 * deltaTime) 0.

Definition toggle (ph : phase) : phase :=
  match ph with
  | attraction_phase => repulsion_phase
  | repulsion_phase => attraction_phase
  end.

(** [_update(deltaTime)]; the final render is not modelled. *)
Definition update (e : frame_env) (s : canvas) : canvas :=
  let t := num_of (tick s) + clockDelta e * 0.1 * deltaTime e in
  let p := posOfForce_at t (env_ww e) (env_wh e) (deltaTime e) in
  let vs := map (fun v => vertexUpdate (forcePhase s) (env_ww e) (env_wh e)
                                       v p (deltaTime e)) (vertices s) in
  let ph := if Nat.eqb (frameCount s mod (60 * 8)) 0
            then toggle (forcePhase s) else forcePhase s in
  mkCanvas vs p (Some t) ph (S (frameCount s)).

(** Successive frames, oldest first. *)
Fixpoint run (s : canvas) (es : list frame_env) : canvas :=
  match es with
  | [] => s
  | e :: es' => run (update e s) es'
  end.

(** ** [boot] *)

(** [THREE.Math.randFloat(low, high)]: [low + Math.random() * (high - low)]. *)
Definition randFloat (low high r : R) : R := low + r * (high - low).

(** The [i]-th vertex of [boot]; [random k] is the value of the [k]-th
    call to [Math.random()] of the loop (three calls per vertex). *)
Definition boot_vertex (ww wh : R) (random : nat -> R) (i : nat) : vertex :=
  mkVertex (randFloat (- ww) ww (random (3 * i)%nat))
           (randFloat (- wh) wh (random (3 * i + 1)%nat))
           (randFloat (- defaults_depth) defaults_depth (random (3 * i + 2)%nat))
           vzero vzero 0.01 1.0.

(** The state after the field initialisers and [boot()], with
    [window.innerWidth] = [ww] and [window.innerHeight] = [wh]. *)
Definition boot (ww wh : R) (random : nat -> R) : canvas :=
  mkCanvas (map (boot_vertex ww wh random) (seq 0 defaults_len))
           vzero None attraction_phase 1.

(** ** The resize reaction of the [Canvas] constructor *)

(** The camera fields the reaction writes. *)
Record camera := mkCamera {
  cam_fov : R;
  cam_aspect : R;
  cam_z : R
}.

(** [reaction(() => [this.ww, this.wh], ...)]: nothing before [boot] has
    created the renderer; otherwise the camera gets the window's aspect and
    is placed at [(0, 0, centerY / tan(radFov * 0.5))].  [None] is a
    [null] renderer. *)
Definition on_resize (cam : option camera) (ww wh centerY : R) : option camera :=
  match cam with
  | None => None
  | Some c =>
      let radFov := (cam_fov c * PI) / 180 in
      Some (mkCamera (cam_fov c) (ww / wh) (centerY / tan (radFov * 0.5)))
  end.

(** [new THREE.PerspectiveCamera(60, ww / wh, 10, 10000)] of [boot]. *)
Definition boot_camera (ww wh : R) : camera := mkCamera 60 (ww / wh) 0.

(** ** The [Particle] group (second class of the file) *)

(** [defaults] of the [Particle] class, after the merge
    [{...defaults, ...options}]. *)
Record particle_options := mkParticleOptions {
  opt_len : nat;
  opt_depth : R;
  opt_size : R;
  opt_friction : R
}.

Definition particle_defaults : particle_options :=
  mkParticleOptions 10000 0 1 0.01.

(** Entry [i] of the three parallel arrays [geometry.vertices],
    [_velocity] and [_force]; [setup] pushes one entry to each per loop
    iteration, so the loop of [_update] over [0 .. len - 1] visits them
    together. *)
Record pparticle := mkPParticle {
  pp_pos : vec3;
  pp_vel : vec3;
  pp_force : vec3
}.

Record pgroup := mkPGroup {
  pg_particles : list pparticle;
  pg_frame : nat
}.

(** [_resetForce]: only [x] and [y] are cleared. *)
Definition resetForce (f : vec3) : vec3 := mkVec3 0 0 (vz f).

(** [_addForce(force, forceX, forceY)]. *)
Definition addForce (f : vec3) (forceX forceY : R) : vec3 :=
  mkVec3 (vx f + forceX) (vy f + forceY) (vz f).

(** [_updateForce(force, velocity)]. *)
Definition updateForce (friction : R) (f u : vec3) : vec3 :=
  mkVec3 (vx f - vx u * friction) (vy f - vy u * friction) (vz f).

(** [_updatePos(pos, force, velocity)]: the new velocity, then the new
    position. *)
Definition updatePos (pos f u : vec3) : vec3 * vec3 :=
  let u' := mkVec3 (vx u + vx f) (vy u + vy f) (vz u) in
  (mkVec3 (vx pos + vx u') (vy pos + vy u') (vz pos), u').

(** The four bounce tests of [Particle._update] on one axis: a coordinate
    above [hi] is clamped to [hi], one below 0 to 0, and each clamp negates
    the velocity component. *)
Definition bounce (hi c u : R) : R * R :=
  let '(c1, u1) := if Rgt_dec c hi then (hi, u * -1) else (c, u) in
  if Rlt_dec c1 0 then (0, u1 * -1) else (c1, u1).

(** The body of the loop of [Particle._update] for one particle. *)
Definition particle_step (friction ww wh : R) (q : pparticle) : pparticle :=
  let f := addForce (resetForce (pp_force q)) 0 (-0.5) in
  let f := updateForce friction f (pp_vel q) in
  let '(pos, u) := updatePos (pp_pos q) f (pp_vel q) in
  let '(x, ux) := bounce ww (vx pos) (vx u) in
  let '(y, uy) := bounce wh (vy pos) (vy u) in
  mkPParticle (mkVec3 x y (vz pos)) (mkVec3 ux uy (vz u)) f.

(** [Particle._update(deltaTime)], reading [this.ww] and [this.wh]. *)
Definition particle_update (o : particle_options) (ww wh : R) (g : pgroup) : pgroup :=
  mkPGroup (map (particle_step (opt_friction o) ww wh) (pg_particles g))
           (S (pg_frame g)).

(** Iteration [i] of [Particle.setup], with [ww = window.innerWidth] and
    [wh = window.innerHeight]; it makes five calls to [Math.random()]
    (three in [randFloat], then [len] and [r]). *)
Definition particle_setup_one (o : particle_options) (ww wh : R)
    (random : nat -> R) (i : nat) : pparticle :=
  let pos := mkVec3 (randFloat 0 ww (random (5 * i)%nat))
                    (randFloat 0 wh (random (5 * i + 1)%nat))
                    (randFloat (- opt_depth o) (opt_depth o) (random (5 * i + 2)%nat)) in
  let len := random (5 * i + 3)%nat * 20 in
  let r := random (5 * i + 4)%nat * PI * 2 in
  mkPParticle pos (mkVec3 (cos r * len) (sin r * len) 0) vzero.

(** [Particle.setup()] after the field initialisers ([_frame = 0]). *)
Definition particle_setup (o : particle_options) (ww wh : R)
    (random : nat -> R) : pgroup :=
  mkPGroup (map (particle_setup_one o ww wh random) (seq 0 (opt_len o))) 0.

(** ** Derived quantities used in the statements *)

(** The phase that the 480-frame cadence gives after [n] frames from
    [Attraction]: one toggle per completed block of 480 frames. *)
Definition phase_schedule (n : nat) : phase :=
  if Nat.even (n / (60 * 8)) then attraction_phase else repulsion_phase.

(** [Vector3.sub]. *)
Definition vsub (a b : vec3) : vec3 :=
  mkVec3 (vx a - vx b) (vy a - vy b) (vz a - vz b).

(** The change a helper call makes to the force accumulator. *)
Definition force_change (before after : vertex) : vec3 :=
  vsub (force after) (force before).

(** The sum of the accumulator increments of successive frames. *)
Definition tick_increments (es : list frame_env) : R :=
  fold_right Rplus 0 (map (fun e => clockDelta e * 0.1 * deltaTime e) es).

(** A vertex is out of reach of both helper calls of the phase: farther
    from each center than that call's radius. *)
Definition beyond_reach (ph : phase) (v : vertex) (p : vec3) : Prop :=
  match ph with
  | attraction_phase =>
      900 < vlength (diff_of v (vx p) (vy p) (vz p)) /\
      200 < vlength (diff_of v (vx p * 0.5) (vy p * 0.5) (vz p * 0.5))
  | repulsion_phase =>
      500 < vlength (diff_of v (vx p * -0.5) (vy p * -0.5) (vz p * -0.5)) /\
      300 < vlength (diff_of v (vx p) (vy p) (vz p))
  end.

(** ** Auxiliary lemmas *)

Lemma vlength_axis (a : R) : 0 <= a -> vlength (mkVec3 a 0 0) = a.
Proof.
  intros Ha. unfold vlength; simpl.
  replace (a * a + 0 * 0 + 0 * 0) with (a * a) by ring.
  apply sqrt_square; exact Ha.
Qed.

Lemma bAmCloseEnough_far (r l : R) : 0 < r -> r < l -> bAmCloseEnough r l = false.
Proof.
  intros Hr Hl. unfold bAmCloseEnough.
  destruct (Rgt_dec r 0); [|lra].
  destruct (Rgt_dec l r); [reflexivity|lra].
Qed.

Lemma attraction_far (v : vertex) (x y z r s : R) :
  0 < r -> r < vlength (diff_of v x y z) -> attraction v x y z r s = v.
Proof.
  intros Hr Hl. unfold attraction. rewrite bAmCloseEnough_far by assumption.
  reflexivity.
Qed.

Lemma repulsion_far (v : vertex) (x y z r s : R) :
  0 < r -> r < vlength (diff_of v x y z) -> repulsion v x y z r s = v.
Proof.
  intros Hr Hl. unfold repulsion. rewrite bAmCloseEnough_far by assumption.
  reflexivity.
Qed.

(** The helpers write the force accumulator and nothing else. *)
Definition same_but_force (v w : vertex) : Prop :=
  px w = px v /\ py w = py v /\ pz w = pz v /\ velocity w = velocity v /\
  friction w = friction v /\ mass w = mass v.

Lemma same_but_force_refl (v : vertex) : same_but_force v v.
Proof. repeat split. Qed.

Lemma same_but_force_trans (u v w : vertex) :
  same_but_force u v -> same_but_force v w -> same_but_force u w.
Proof.
  unfold same_but_force; intros (?&?&?&?&?&?) (?&?&?&?&?&?).
  repeat split; congruence.
Qed.

Lemma set_force_same (v : vertex) (f : vec3) : same_but_force v (set_force v f).
Proof. repeat split. Qed.

Lemma attraction_same (v : vertex) (x y z r s : R) :
  same_but_force v (attraction v x y z r s).
Proof.
  unfold attraction. destruct (bAmCloseEnough _ _).
  - apply set_force_same.
  - apply same_but_force_refl.
Qed.

Lemma repulsion_same (v : vertex) (x y z r s : R) :
  same_but_force v (repulsion v x y z r s).
Proof.
  unfold repulsion. destruct (bAmCloseEnough _ _).
  - apply set_force_same.
  - apply same_but_force_refl.
Qed.

Lemma apply_phase_same (ph : phase) (v : vertex) (p : vec3) :
  same_but_force v (apply_phase ph v p).
Proof.
  destruct ph; simpl;
    eapply same_but_force_trans;
    (apply attraction_same || apply repulsion_same).
Qed.

(** The six tests of [wrap] leave every coordinate inside its window. *)
Lemma wrap_bounds (ww wh : R) (v : vertex) :
  0 <= ww -> 0 <= wh ->
  let w := wrap ww wh v in
  - ww <= px w <= ww /\ - wh <= py w <= wh /\
  - defaults_depth <= pz w <= defaults_depth.
Proof.
  intros Hw Hh. unfold wrap, defaults_depth; simpl.
  repeat match goal with
  | |- context [Rgt_dec ?a ?b] => destruct (Rgt_dec a b)
  | |- context [Rlt_dec ?a ?b] => destruct (Rlt_dec a b)
  end; lra.
Qed.

Lemma wrap_z (ww wh : R) (v : vertex) :
  - defaults_depth <= pz (wrap ww wh v) <= defaults_depth.
Proof.
  unfold wrap, defaults_depth; simpl.
  repeat match goal with
  | |- context [Rgt_dec ?a ?b] => destruct (Rgt_dec a b)
  | |- context [Rlt_dec ?a ?b] => destruct (Rlt_dec a b)
  end; lra.
Qed.

Lemma bAmCloseEnough_near (r l : R) : l <= r -> bAmCloseEnough r l = true.
Proof.
  intros Hl. unfold bAmCloseEnough.
  destruct (Rgt_dec r 0); [|reflexivity].
  destruct (Rgt_dec l r); [lra|reflexivity].
Qed.

Lemma bAmCloseEnough_zero_radius (l : R) : bAmCloseEnough 0 l = true.
Proof.
  unfold bAmCloseEnough. destruct (Rgt_dec 0 0); [lra|reflexivity].
Qed.

Lemma attraction_near (v : vertex) (x y z r s : R) :
  bAmCloseEnough r (vlength (diff_of v x y z)) = true ->
  attraction v x y z r s =
  attraction_apply v (diff_of v x y z) s (1 - vlength (diff_of v x y z) / r).
Proof. intros H. unfold attraction. rewrite H. reflexivity. Qed.

Lemma repulsion_near (v : vertex) (x y z r s : R) :
  bAmCloseEnough r (vlength (diff_of v x y z)) = true ->
  repulsion v x y z r s =
  repulsion_apply v (diff_of v x y z) s (1 - vlength (diff_of v x y z) / r).
Proof. intros H. unfold repulsion. rewrite H. reflexivity. Qed.

(** Length and direction of [d * u] for a unit vector [u]. *)
Lemma vlength_scaled (d ux uy uz : R) :
  0 <= d -> ux * ux + uy * uy + uz * uz = 1 ->
  vlength (mkVec3 (d * ux) (d * uy) (d * uz)) = d.
Proof.
  intros Hd Hu. unfold vlength; simpl.
  replace (d * ux * (d * ux) + d * uy * (d * uy) + d * uz * (d * uz))
    with (d * d * (ux * ux + uy * uy + uz * uz)) by ring.
  rewrite Hu, Rmult_1_r. apply sqrt_square; exact Hd.
Qed.

Lemma vnormalize_scaled (d ux uy uz : R) :
  0 < d -> ux * ux + uy * uy + uz * uz = 1 ->
  vnormalize (mkVec3 (d * ux) (d * uy) (d * uz)) = mkVec3 ux uy uz.
Proof.
  intros Hd Hu. unfold vnormalize.
  rewrite vlength_scaled by (lra || assumption).
  destruct (Req_EM_T d 0) as [|_]; [lra|].
  simpl. f_equal; field; lra.
Qed.

Lemma vnormalize_zero : vnormalize (mkVec3 0 0 0) = mkVec3 0 0 0.
Proof.
  unfold vnormalize, vlength; simpl.
  replace (0 * 0 + 0 * 0 + 0 * 0) with 0 by ring. rewrite sqrt_0.
  destruct (Req_EM_T 0 0) as [_|]; [|lra].
  f_equal; ring.
Qed.

(** A vertex at [c + d * u]. *)
Lemma diff_of_scaled (v : vertex) (cx cy cz d ux uy uz : R) :
  px v = cx + d * ux -> py v = cy + d * uy -> pz v = cz + d * uz ->
  diff_of v cx cy cz = mkVec3 (d * ux) (d * uy) (d * uz).
Proof.
  intros Hx Hy Hz. unfold diff_of. rewrite Hx, Hy, Hz. f_equal; ring.
Qed.

Lemma in_update_vertices (e : frame_env) (s : canvas) (v : vertex) :
  In v (vertices (update e s)) ->
  exists w, In w (vertices s) /\ v = wrap (env_ww e) (env_wh e)
    (integrate (apply_phase (forcePhase s)
       (set_force w (recombine_force w (deltaTime e))) (posOfForce (update e s)))
       (deltaTime e)).
Proof.
  simpl. intros Hin. apply in_map_iff in Hin. destruct Hin as [w [Hw Hin]].
  exists w. split; [exact Hin|]. rewrite <- Hw. reflexivity.
Qed.

(** A vertex of the counterexamples: at [(x, y, 0)], at rest, with no
    accumulated force. *)
Definition rest_vertex (x y : R) : vertex :=
  mkVertex x y 0 vzero vzero 0.01 1.0.

(** The first frame of a booted canvas with a zero clock delta puts the
    attractor at [(50, 0, 0)]. *)
Lemma posOfForce_first (ww wh : R) :
  posOfForce_at (num_of None + 0 * 0.1 * 1) ww wh 1 = mkVec3 50 0 0.
Proof.
  unfold posOfForce_at, num_of, defaults_speed_horizontal, defaults_speed_vertical.
  replace (0 + 0 * 0.1 * 1) with 0 by ring.
  destruct (Rlt_dec 0 1) as [_|H]; [|lra].
  rewrite !Rmult_0_l, cos_0, sin_0. f_equal; ring.
Qed.

(** A vertex at rest at [(x, 0, 0)] with [x > 1000] is out of reach of both
    helpers of the attraction phase when the attractor is at [(50, 0, 0)];
    integration leaves it at [x]. *)
Lemma far_vertex_integrated (x : R) :
  1000 < x ->
  integrate (apply_phase attraction_phase
     (set_force (rest_vertex x 0) (recombine_force (rest_vertex x 0) 1))
     (mkVec3 50 0 0)) 1 =
  mkVertex x 0 0 vzero vzero 0.01 1.0.
Proof.
  intros Hx. simpl.
  assert (Hf : recombine_force (rest_vertex x 0) 1 = vzero).
  { unfold recombine_force, vzero; simpl. f_equal; ring. }
  rewrite Hf.
  rewrite attraction_far.
  2: lra.
  2:{ unfold diff_of; simpl.
      replace (0 - 0) with 0 by ring. rewrite vlength_axis; lra. }
  rewrite repulsion_far.
  2: lra.
  2:{ unfold diff_of; simpl.
      replace (0 - 0 * 0.5) with 0 by ring. rewrite vlength_axis; lra. }
  unfold integrate, set_force, vzero; simpl. f_equal; try f_equal; ring.
Qed.

(** ** Claims *)

(** C1 (corrected).  After every [_update], every vertex satisfies
    [-ww <= x <= ww], [-wh <= y <= wh] and [-depth <= z <= depth], where
    [ww] and [wh] are the store's full [windowWidth] and [windowHeight]
    (not half of them) and [depth] is [defaults.depth]. *)
Theorem update_within_window (e : frame_env) (s : canvas) (v : vertex)
  (Hw : 0 <= env_ww e) (Hh : 0 <= env_wh e)
  (Hin : In v (vertices (update e s))) :
  - env_ww e <= px v <= env_ww e /\ - env_wh e <= py v <= env_wh e /\
  - defaults_depth <= pz v <= defaults_depth.
Proof.
  destruct (in_update_vertices e s v Hin) as [w [_ ->]].
  apply wrap_bounds; assumption.
Qed.

Lemma update_within_window_witness :
  let e := mkEnv 0 1 1000 1000 in
  let s := mkCanvas [rest_vertex 1001 0] vzero None attraction_phase 1 in
  let v := vertexUpdate attraction_phase 1000 1000 (rest_vertex 1001 0)
             (posOfForce_at (num_of None + 0 * 0.1 * 1) 1000 1000 1) 1 in
  - 1000 <= px v <= 1000 /\ - 1000 <= py v <= 1000 /\
  - defaults_depth <= pz v <= defaults_depth.
Proof.
  intros e s v.
  apply (update_within_window e s v).
  - simpl; lra.
  - simpl; lra.
  - simpl. left. reflexivity.
Defined.

(** C1, as stated with [halfWidth] = [windowWidth / 2], fails: with a
    window 1000 wide, a vertex at rest at [x = 1001] (out of the
    attractor's reach) is wrapped to [x = -1000], outside [-500, 500]. *)
Lemma update_within_half_window_fails :
  ~ (forall (e : frame_env) (s : canvas) (v : vertex),
       In v (vertices (update e s)) ->
       - (env_ww e / 2) <= px v <= env_ww e / 2).
Proof.
  intros H.
  set (e := mkEnv 0 1 1000 1000).
  set (s := mkCanvas [rest_vertex 1001 0] vzero None attraction_phase 1).
  specialize (H e s (vertexUpdate attraction_phase 1000 1000 (rest_vertex 1001 0)
                  (posOfForce_at (num_of None + 0 * 0.1 * 1) 1000 1000 1) 1)).
  simpl env_ww in H.
  assert (Hin : In (vertexUpdate attraction_phase 1000 1000 (rest_vertex 1001 0)
                  (posOfForce_at (num_of None + 0 * 0.1 * 1) 1000 1000 1) 1)
                (vertices (update e s))).
  { simpl. left. reflexivity. }
  specialize (H Hin). clear Hin.
  rewrite posOfForce_first in H. unfold vertexUpdate in H.
  rewrite far_vertex_integrated in H by lra.
  unfold wrap in H; simpl in H.
  destruct (Rgt_dec 1001 1000) as [_|]; [|lra].
  match type of H with
  | context [Rlt_dec ?a ?b] => destruct (Rlt_dec a b)
  end; lra.
Qed.

(** C2 (corrected).  On each axis, a coordinate above the positive bound
    after integration is set to the negative bound, one below the negative
    bound to the positive bound, and one inside is kept; the bounds are
    [windowWidth], [windowHeight] and [defaults.depth]; velocity, force,
    friction and mass are untouched.  With [windowWidth = 500], [x = 501]
    wraps to [-500]. *)
Theorem wrap_teleports (ww wh : R) (v : vertex) (Hw : 0 <= ww) (Hh : 0 <= wh) :
  let w := wrap ww wh v in
  (px v > ww -> px w = - ww) /\ (px v < - ww -> px w = ww) /\
  (- ww <= px v <= ww -> px w = px v) /\
  (py v > wh -> py w = - wh) /\ (py v < - wh -> py w = wh) /\
  (- wh <= py v <= wh -> py w = py v) /\
  (pz v > defaults_depth -> pz w = - defaults_depth) /\
  (pz v < - defaults_depth -> pz w = defaults_depth) /\
  (- defaults_depth <= pz v <= defaults_depth -> pz w = pz v) /\
  velocity w = velocity v /\ force w = force v /\
  friction w = friction v /\ mass w = mass v /\
  (forall v' : vertex, px v' = 501 -> px (wrap 500 wh v') = - 500).
Proof.
  unfold wrap, defaults_depth; simpl.
  repeat split; intros;
  repeat match goal with
  | |- context [Rgt_dec ?a ?b] => destruct (Rgt_dec a b)
  | |- context [Rlt_dec ?a ?b] => destruct (Rlt_dec a b)
  end; lra.
Qed.

Lemma wrap_teleports_witness :
  let w := wrap 500 500 (rest_vertex 501 0) in
  (px (rest_vertex 501 0) > 500 -> px w = - 500) /\
  velocity w = velocity (rest_vertex 501 0).
Proof.
  destruct (wrap_teleports 500 500 (rest_vertex 501 0)) as [H1 H2];
    [lra | lra |].
  split; [exact H1 | apply H2].
Defined.

(** C2, with [halfWidth = 500] read as half of a [windowWidth] of 1000,
    fails: [x = 501] is inside the bound 1000 and is not wrapped. *)
Lemma wrap_half_width_fails :
  px (wrap 1000 1000 (rest_vertex 501 0)) = 501 /\
  px (wrap 1000 1000 (rest_vertex 501 0)) <> - 500.
Proof.
  unfold wrap; simpl.
  repeat match goal with
  | |- context [Rgt_dec ?a ?b] => destruct (Rgt_dec a b)
  | |- context [Rlt_dec ?a ?b] => destruct (Rlt_dec a b)
  end; split; lra.
Qed.

(** C10.  With [defaults.depth = 0], every vertex lies in the plane
    [z = 0] after every [_update]. *)
Theorem update_flat_z (e : frame_env) (s : canvas) (v : vertex)
  (Hin : In v (vertices (update e s))) :
  pz v = 0.
Proof.
  destruct (in_update_vertices e s v Hin) as [w [_ ->]].
  pose proof (wrap_z (env_ww e) (env_wh e)
    (integrate (apply_phase (forcePhase s)
       (set_force w (recombine_force w (deltaTime e))) (posOfForce (update e s)))
       (deltaTime e))) as Hz.
  unfold defaults_depth in Hz. lra.
Qed.

Lemma update_flat_z_witness :
  let e := mkEnv 0 1 1000 1000 in
  let s := mkCanvas [rest_vertex 1001 0] vzero None attraction_phase 1 in
  pz (vertexUpdate attraction_phase 1000 1000 (rest_vertex 1001 0)
        (posOfForce_at (num_of None + 0 * 0.1 * 1) 1000 1000 1) 1) = 0.
Proof.
  intros e s.
  apply (update_flat_z e s).
  simpl. left. reflexivity.
Defined.

(** C3.  [_vertexUpdate] first sets the force to
    [(force - velocity * friction) * 0.41 * deltaTime], then applies the two
    helpers of the phase (which write only the force), then integrates
    [velocity += force * 0.41 * deltaTime] and
    [position += velocity * deltaTime] with the updated values, and wraps
    last. *)
Theorem vertexUpdate_integration (ph : phase) (ww wh : R) (v : vertex)
  (p : vec3) (dt : R) :
  let f := force v in
  let u := velocity v in
  let f0 := mkVec3 ((vx f - vx u * friction v) * 0.41 * dt)
                   ((vy f - vy u * friction v) * 0.41 * dt)
                   ((vz f - vz u * friction v) * 0.41 * dt) in
  let f1 := force (apply_phase ph (set_force v f0) p) in
  let u' := mkVec3 (vx u + vx f1 * 0.41 * dt)
                   (vy u + vy f1 * 0.41 * dt)
                   (vz u + vz f1 * 0.41 * dt) in
  vertexUpdate ph ww wh v p dt =
  wrap ww wh (mkVertex (px v + vx u' * dt) (py v + vy u' * dt)
                       (pz v + vz u' * dt) u' f1 (friction v) (mass v)).
Proof.
  intros f u f0 f1 u'.
  unfold vertexUpdate.
  change (recombine_force v dt) with f0.
  destruct (apply_phase_same ph (set_force v f0) p)
    as (Hx & Hy & Hz & Hu & Hf & Hm).
  unfold integrate. rewrite Hx, Hy, Hz, Hu, Hf, Hm. reflexivity.
Qed.

(** Frames are processed in order. *)
Lemma run_app (s : canvas) (es es' : list frame_env) :
  run s (es ++ es') = run (run s es) es'.
Proof.
  revert s; induction es as [|e es IH]; intros s; simpl; auto.
Qed.

Lemma frameCount_run (s : canvas) (es : list frame_env) :
  frameCount (run s es) = (frameCount s + length es)%nat.
Proof.
  revert s; induction es as [|e es IH]; intros s; simpl.
  - lia.
  - rewrite IH. simpl. lia.
Qed.

Lemma div_480_succ (n : nat) :
  (S n / 480 = if Nat.eqb (S n mod 480) 0 then S (n / 480) else n / 480)%nat.
Proof.
  pose proof (Nat.div_mod_eq (S n) 480). pose proof (Nat.div_mod_eq n 480).
  pose proof (Nat.mod_upper_bound (S n) 480). pose proof (Nat.mod_upper_bound n 480).
  destruct (Nat.eqb_spec (S n mod 480) 0); nia.
Qed.

Lemma phase_schedule_succ (n : nat) :
  phase_schedule (S n) =
  if Nat.eqb (S n mod 480) 0 then toggle (phase_schedule n) else phase_schedule n.
Proof.
  unfold phase_schedule. change (60 * 8)%nat with 480%nat.
  rewrite div_480_succ.
  destruct (Nat.eqb (S n mod 480) 0); [|reflexivity].
  rewrite Nat.even_succ, <- Nat.negb_even.
  destruct (Nat.even (n / 480)); reflexivity.
Qed.

(** From a booted canvas, the phase after [n] frames follows the schedule,
    whatever the frames' inputs. *)
Lemma forcePhase_run_boot (ww wh : R) (random : nat -> R) (es : list frame_env) :
  forcePhase (run (boot ww wh random) es) = phase_schedule (length es).
Proof.
  induction es as [|e es IH] using rev_ind.
  - reflexivity.
  - rewrite run_app, length_app. simpl.
    rewrite frameCount_run. simpl frameCount.
    rewrite IH. replace (length es + 1)%nat with (S (length es)) by lia.
    rewrite phase_schedule_succ. reflexivity.
Qed.

(** C4.  A booted canvas starts in [attraction]; after exactly 480 frames
    the phase is [repulsion] (and is [attraction] after every shorter run),
    and after 960 frames it is [attraction] again. *)
Theorem phase_toggles_every_480 (ww wh : R) (random : nat -> R) :
  forcePhase (boot ww wh random) = attraction_phase /\
  (forall es, (length es < 480)%nat ->
     forcePhase (run (boot ww wh random) es) = attraction_phase) /\
  (forall es, length es = 480%nat ->
     forcePhase (run (boot ww wh random) es) = repulsion_phase) /\
  (forall es, length es = 960%nat ->
     forcePhase (run (boot ww wh random) es) = attraction_phase).
Proof.
  split; [reflexivity|]. split; [|split].
  - intros es Hl. rewrite forcePhase_run_boot. unfold phase_schedule.
    change (60 * 8)%nat with 480%nat.
    rewrite Nat.div_small by exact Hl. reflexivity.
  - intros es Hl. rewrite forcePhase_run_boot, Hl. reflexivity.
  - intros es Hl. rewrite forcePhase_run_boot, Hl. reflexivity.
Qed.

(** C5 (corrected).  In the in-radius branch, [attraction] writes
    [force.z = force.y - diff.y * scale * pct] and [repulsion] writes
    [force.z = force.y + diff.y * scale * pct], [force.y] being the value
    just written and [diff] the normalised difference; no [diff.z] term
    enters [force.z]. *)
Theorem helpers_force_z_from_y (v : vertex) (x y z r s : R)
  (Hin : bAmCloseEnough r (vlength (diff_of v x y z)) = true) :
  let d := vnormalize (diff_of v x y z) in
  let pct := 1 - vlength (diff_of v x y z) / r in
  let a := attraction v x y z r s in
  let b := repulsion v x y z r s in
  vy (force a) = vy (force v) - vy d * s * pct /\
  vz (force a) = vy (force a) - vy d * s * pct /\
  vy (force b) = vy (force v) + vy d * s * pct /\
  vz (force b) = vy (force b) + vy d * s * pct.
Proof.
  intros d pct a b. unfold a, b.
  rewrite attraction_near, repulsion_near by exact Hin.
  repeat split.
Qed.

Lemma helpers_force_z_from_y_witness :
  let v := rest_vertex 0 1 in
  let d := vnormalize (diff_of v 0 0 0) in
  let pct := 1 - vlength (diff_of v 0 0 0) / 900 in
  vz (force (repulsion v 0 0 0 900 0.02)) =
  vy (force (repulsion v 0 0 0 900 0.02)) + vy d * 0.02 * pct.
Proof.
  intros v d pct.
  apply (helpers_force_z_from_y v 0 0 0 900 0.02).
  apply bAmCloseEnough_near.
  rewrite (diff_of_scaled v 0 0 0 1 0 1 0) by (simpl; ring).
  rewrite vlength_scaled; lra.
Defined.

(** C5, as stated, fails for [repulsion]: for a vertex at rest at
    [(0, 1, 0)] and the center at the origin, [force.z] is
    [force.y + diff.y * scale * pct], not [force.y - diff.y * scale * pct]. *)
Lemma repulsion_force_z_sign :
  let v := rest_vertex 0 1 in
  let d := vnormalize (diff_of v 0 0 0) in
  let pct := 1 - vlength (diff_of v 0 0 0) / 900 in
  vz (force (repulsion v 0 0 0 900 0.02)) <>
  vy (force (repulsion v 0 0 0 900 0.02)) - vy d * 0.02 * pct.
Proof.
  intros v d pct.
  assert (Hd : diff_of v 0 0 0 = mkVec3 (1 * 0) (1 * 1) (1 * 0))
    by (apply diff_of_scaled; simpl; ring).
  assert (Hl : vlength (diff_of v 0 0 0) = 1)
    by (rewrite Hd; apply vlength_scaled; lra).
  unfold d, pct. rewrite repulsion_near.
  2:{ apply bAmCloseEnough_near. lra. }
  unfold repulsion_apply. rewrite Hl, Hd, vnormalize_scaled by lra.
  simpl. lra.
Qed.

(** C6 (corrected).  [boot] validates nothing: for every window size it
    allocates [defaults.len] = 10000 vertices, each with zero velocity and
    force, friction 0.01 and mass 1, and the canvas starts with a [null]
    accumulator, the [attraction] phase and frame count 1. *)
Theorem boot_allocates (ww wh : R) (random : nat -> R) :
  let s := boot ww wh random in
  length (vertices s) = defaults_len /\
  Forall (fun v => velocity v = vzero /\ force v = vzero /\
                   friction v = 0.01 /\ mass v = 1.0) (vertices s) /\
  tick s = None /\ forcePhase s = attraction_phase /\ frameCount s = 1%nat.
Proof.
  intros s. unfold s, boot. cbn [vertices tick forcePhase frameCount].
  split; [|split].
  - rewrite length_map, length_seq. reflexivity.
  - apply Forall_forall. intros v Hv. apply in_map_iff in Hv.
    destruct Hv as [i [<- _]]. repeat split.
  - repeat split.
Qed.

(** C6, as stated, fails: a window of width and height 0 is not rejected;
    [boot] still allocates the full vertex set. *)
Lemma boot_zero_window_succeeds :
  length (vertices (boot 0 0 (fun _ => 0))) = 10000%nat.
Proof.
  unfold boot. cbn [vertices]. rewrite length_map, length_seq. reflexivity.
Qed.

(** ** JavaScript numbers in the force helpers *)

Lemma vlength_nonneg (u : vec3) : 0 <= vlength u.
Proof. unfold vlength. apply sqrt_pos. Qed.

Lemma js_add_nonfin_r (a b : jsnum) :
  is_fin b = false -> is_fin (js_add a b) = false.
Proof. intros H. destruct a, b; simpl in *; try discriminate; reflexivity. Qed.

Lemma js_sub_nonfin_r (a b : jsnum) :
  is_fin b = false -> is_fin (js_sub a b) = false.
Proof.
  intros H. unfold js_sub. apply js_add_nonfin_r.
  destruct b; simpl in *; try discriminate; reflexivity.
Qed.

Lemma inf_of_sign_nonfin (r : R) : is_fin (inf_of_sign r) = false.
Proof. unfold inf_of_sign. destruct (Rlt_dec r 0); reflexivity. Qed.

Lemma js_mul_nonfin_r (a b : jsnum) :
  is_fin b = false -> is_fin (js_mul a b) = false.
Proof.
  intros H. destruct a, b; simpl in *; try discriminate; try reflexivity;
  match goal with |- context [Req_EM_T ?x 0] => destruct (Req_EM_T x 0) end;
  try reflexivity; try apply inf_of_sign_nonfin;
  unfold inf_of_sign; match goal with |- context [Rlt_dec ?x 0] =>
    destruct (Rlt_dec x 0) end; reflexivity.
Qed.

(** With a zero radius, [1 - (length / radius)] is [NaN] at length 0 and
    [-Infinity] otherwise. *)
Lemma pct_js_zero_radius (l : R) :
  0 <= l -> pct_js l 0 = if Req_EM_T l 0 then NaN else NInf.
Proof.
  intros Hl. unfold pct_js. cbv beta iota delta [js_div].
  destruct (Req_EM_T 0 0) as [_|H]; [|lra].
  destruct (Req_EM_T l 0) as [_|Hn]; [reflexivity|].
  unfold inf_of_sign. destruct (Rlt_dec l 0); [lra|reflexivity].
Qed.

(** C7 (corrected).  A zero radius is neither rejected nor skipped: the
    outside-radius test only runs for a positive radius, so both helpers
    take the in-radius branch and compute [pct = 1 - length / 0] with no
    guard, which is [NaN] at length 0 and [-Infinity] otherwise.  Every
    force component the helper then writes is [Infinity], [-Infinity] or
    [NaN]: the helper returns normally with a non-finite force. *)
Theorem zero_radius_applies (v : vertex) (x y z s : R) :
  bAmCloseEnough 0 (vlength (diff_of v x y z)) = true /\
  pct_js (vlength (diff_of v x y z)) 0 =
    (if Req_EM_T (vlength (diff_of v x y z)) 0 then NaN else NInf) /\
  is_fin (jx (attraction_js v x y z 0 s)) = false /\
  is_fin (jy (attraction_js v x y z 0 s)) = false /\
  is_fin (jz (attraction_js v x y z 0 s)) = false /\
  is_fin (jx (repulsion_js v x y z 0 s)) = false /\
  is_fin (jy (repulsion_js v x y z 0 s)) = false /\
  is_fin (jz (repulsion_js v x y z 0 s)) = false.
Proof.
  assert (Hp := pct_js_zero_radius _ (vlength_nonneg (diff_of v x y z))).
  assert (Hn : is_fin (pct_js (vlength (diff_of v x y z)) 0) = false).
  { rewrite Hp. destruct (Req_EM_T (vlength (diff_of v x y z)) 0); reflexivity. }
  unfold attraction_js, repulsion_js. cbv zeta.
  rewrite bAmCloseEnough_zero_radius. cbn [jx jy jz].
  split; [reflexivity|]. split; [exact Hp|].
  repeat split;
    first [apply js_sub_nonfin_r | apply js_add_nonfin_r];
    apply js_mul_nonfin_r; exact Hn.
Qed.

(** C7, as stated, fails: for a vertex at rest at [(1, 0, 0)] with no
    force, [attraction] with radius 0 and scale 0.02 does not skip the
    vertex and does not guard the division: [pct] is [1 - 1 / 0 =
    -Infinity] and the force [(0, 0, 0)] becomes
    [(Infinity, NaN, NaN)]. *)
Lemma zero_radius_not_skipped :
  bAmCloseEnough 0 (vlength (diff_of (rest_vertex 1 0) 0 0 0)) = true /\
  pct_js (vlength (diff_of (rest_vertex 1 0) 0 0 0)) 0 = NInf /\
  lift3 (force (rest_vertex 1 0)) = mkJsVec3 (Fin 0) (Fin 0) (Fin 0) /\
  attraction_js (rest_vertex 1 0) 0 0 0 0 0.02 = mkJsVec3 PInf NaN NaN.
Proof.
  assert (Hd : diff_of (rest_vertex 1 0) 0 0 0 = mkVec3 (1 * 1) (1 * 0) (1 * 0))
    by (apply diff_of_scaled; cbn [px py pz rest_vertex]; ring).
  assert (Hl : vlength (diff_of (rest_vertex 1 0) 0 0 0) = 1)
    by (rewrite Hd; apply vlength_scaled; lra).
  assert (Hu : vnormalize (diff_of (rest_vertex 1 0) 0 0 0) = mkVec3 1 0 0)
    by (rewrite Hd; apply vnormalize_scaled; lra).
  assert (Hp : pct_js 1 0 = NInf).
  { rewrite pct_js_zero_radius by lra.
    destruct (Req_EM_T 1 0); [lra|reflexivity]. }
  split; [apply bAmCloseEnough_zero_radius|].
  split; [rewrite Hl; exact Hp|].
  split; [reflexivity|].
  unfold attraction_js. cbv zeta.
  rewrite bAmCloseEnough_zero_radius, Hl, Hu, Hp.
  cbn [vx vy vz force rest_vertex vzero].
  cbv beta iota delta [js_sub js_add js_neg js_mul].
  destruct (Req_EM_T (1 * 0.02) 0); [lra|].
  destruct (Req_EM_T (0 * 0.02) 0); [|lra].
  unfold inf_of_sign. destruct (Rlt_dec (1 * 0.02) 0); [lra|].
  reflexivity.
Qed.

(** For a nonzero radius, every value in [attraction_js] and
    [repulsion_js] stays finite and the force they write is the one of
    [attraction] and [repulsion]. *)
Theorem helpers_js_agree (v : vertex) (x y z r s : R) :
  r <> 0 ->
  attraction_js v x y z r s = lift3 (force (attraction v x y z r s)) /\
  repulsion_js v x y z r s = lift3 (force (repulsion v x y z r s)).
Proof.
  intros Hr. unfold attraction_js, repulsion_js, attraction, repulsion.
  cbv zeta.
  destruct (bAmCloseEnough r (vlength (diff_of v x y z))); [|split; reflexivity].
  assert (Hp : pct_js (vlength (diff_of v x y z)) r =
               Fin (1 - vlength (diff_of v x y z) / r)).
  { unfold pct_js. cbv beta iota delta [js_sub js_add js_neg js_div].
    destruct (Req_EM_T r 0); [contradiction|]. f_equal; ring. }
  rewrite Hp. unfold attraction_apply, repulsion_apply, lift3, set_force.
  cbn [force vx vy vz].
  cbv beta iota zeta delta [js_sub js_add js_neg js_mul].
  split; f_equal; f_equal; ring.
Qed.

Lemma helpers_js_agree_witness :
  (900 : R) <> 0 /\
  attraction_js (rest_vertex 1 0) 0 0 0 900 0.02 =
  lift3 (force (attraction (rest_vertex 1 0) 0 0 0 900 0.02)).
Proof.
  split; [lra|].
  refine (proj1 (helpers_js_agree (rest_vertex 1 0) 0 0 0 900 0.02 _)). lra.
Defined.

Lemma tick_update (e : frame_env) (s : canvas) :
  tick (update e s) = Some (num_of (tick s) + clockDelta e * 0.1 * deltaTime e).
Proof. reflexivity. Qed.

(** C9 (corrected).  Each [_update] adds [clockDelta * 0.1 * deltaTime] to
    the accumulator, [clockDelta] being the wall-clock seconds returned by
    [this._clock.getDelta()]; from the [null] of a booted canvas, the
    accumulator after [n] frames is the sum of these increments. *)
Theorem tick_accumulates (ww wh : R) (random : nat -> R) :
  (forall e s, num_of (tick (update e s)) =
               num_of (tick s) + clockDelta e * 0.1 * deltaTime e) /\
  (forall es, num_of (tick (run (boot ww wh random) es)) = tick_increments es).
Proof.
  split.
  - intros e s. rewrite tick_update. reflexivity.
  - intros es.
    assert (H : forall s, num_of (tick (run s es)) =
                          num_of (tick s) + tick_increments es).
    { induction es as [|e es IH]; intros s; simpl.
      - unfold tick_increments; simpl. ring.
      - rewrite IH, tick_update. unfold tick_increments; simpl. ring. }
    rewrite H. simpl. ring.
Qed.

(** C9, as stated, fails: with a clock delta of half a second and
    [deltaTime = 1], the first frame advances the accumulator by [0.05],
    not by [deltaTime * 0.1]. *)
Lemma tick_advance_uses_clock :
  let e := mkEnv (1 / 2) 1 1000 1000 in
  let s := boot 1000 1000 (fun _ => 0) in
  num_of (tick (update e s)) = 0.05 /\
  num_of (tick (update e s)) <> num_of (tick s) + deltaTime e * 0.1.
Proof.
  intros e s. rewrite tick_update. simpl. split; lra.
Qed.

(** For a vertex at [c + d * u] with [u] a unit vector and
    [0 < d <= radius], [attraction] changes [force.x] and [force.y] by
    [-u * scale * (1 - d / radius)]. *)
Lemma attraction_change_xy (v : vertex) (cx cy cz ux uy uz r s d : R) :
  ux * ux + uy * uy + uz * uz = 1 -> 0 < d -> d <= r ->
  px v = cx + d * ux -> py v = cy + d * uy -> pz v = cz + d * uz ->
  let c := force_change v (attraction v cx cy cz r s) in
  vx c = - (ux * s * (1 - d / r)) /\ vy c = - (uy * s * (1 - d / r)).
Proof.
  intros Hu Hd Hdr Hx Hy Hz c.
  assert (Hdiff := diff_of_scaled v cx cy cz d ux uy uz Hx Hy Hz).
  assert (Hl : vlength (diff_of v cx cy cz) = d)
    by (rewrite Hdiff; apply vlength_scaled; lra).
  unfold c. rewrite attraction_near.
  2:{ apply bAmCloseEnough_near. lra. }
  unfold force_change, attraction_apply, vsub. rewrite Hl, Hdiff.
  rewrite vnormalize_scaled by assumption.
  simpl. split; ring.
Qed.

(** C8 (corrected).  Along a fixed direction from the attractor center,
    the change [attraction] makes to [force.x] and [force.y] is not larger
    at a larger distance: with radius and scale positive and
    [0 < d1 < d2 <= radius], the (x, y) part of the change at [d1] has at
    least the magnitude of the one at [d2]. *)
Theorem attraction_falloff_xy (cx cy cz ux uy uz r s d1 d2 : R)
  (v1 v2 : vertex)
  (Hu : ux * ux + uy * uy + uz * uz = 1) (Hr : 0 < r) (Hs : 0 < s)
  (Hd1 : 0 < d1) (Hd12 : d1 < d2) (Hd2 : d2 <= r)
  (Hx1 : px v1 = cx + d1 * ux) (Hy1 : py v1 = cy + d1 * uy)
  (Hz1 : pz v1 = cz + d1 * uz)
  (Hx2 : px v2 = cx + d2 * ux) (Hy2 : py v2 = cy + d2 * uy)
  (Hz2 : pz v2 = cz + d2 * uz) :
  let c1 := force_change v1 (attraction v1 cx cy cz r s) in
  let c2 := force_change v2 (attraction v2 cx cy cz r s) in
  vx c2 * vx c2 + vy c2 * vy c2 <= vx c1 * vx c1 + vy c1 * vy c1.
Proof.
  intros c1 c2.
  destruct (attraction_change_xy v1 cx cy cz ux uy uz r s d1) as [E1x E1y];
    try assumption; try lra.
  destruct (attraction_change_xy v2 cx cy cz ux uy uz r s d2) as [E2x E2y];
    try assumption; try lra.
  unfold c1, c2. rewrite E1x, E1y, E2x, E2y.
  set (p1 := 1 - d1 / r). set (p2 := 1 - d2 / r).
  assert (Hi : 0 < / r) by (apply Rinv_0_lt_compat; exact Hr).
  assert (Hp2 : 0 <= p2).
  { unfold p2. replace (1 - d2 / r) with ((r - d2) * / r) by (field; lra).
    apply Rmult_le_pos; lra. }
  assert (Hp12 : p2 <= p1).
  { unfold p1, p2. replace (1 - d1 / r) with (1 - d2 / r + (d2 - d1) * / r)
      by (field; lra).
    assert (0 <= (d2 - d1) * / r) by (apply Rmult_le_pos; lra). lra. }
  assert (Hsq : p2 * p2 <= p1 * p1) by nra.
  assert (Hxy : 0 <= ux * ux + uy * uy) by nra.
  assert (H0 : 0 <= (ux * ux + uy * uy) * (s * s) * (p1 * p1 - p2 * p2)).
  { apply Rmult_le_pos; [apply Rmult_le_pos; nra | lra]. }
  nra.
Qed.

Lemma attraction_falloff_xy_witness :
  let v1 := rest_vertex 1 0 in
  let v2 := rest_vertex 2 0 in
  let c1 := force_change v1 (attraction v1 0 0 0 900 0.02) in
  let c2 := force_change v2 (attraction v2 0 0 0 900 0.02) in
  vx c2 * vx c2 + vy c2 * vy c2 <= vx c1 * vx c1 + vy c1 * vy c1.
Proof.
  intros v1 v2 c1 c2.
  apply (attraction_falloff_xy 0 0 0 1 0 0 900 0.02 1 2 v1 v2);
    simpl; lra.
Defined.

(** C8, as stated, fails at distance 0: a vertex at rest exactly at the
    center gets no change at all (its zero difference vector normalises to
    zero), while one at distance 1 on the x axis gets a nonzero change. *)
Lemma attraction_falloff_fails_at_center :
  let v1 := rest_vertex 0 0 in
  let v2 := rest_vertex 1 0 in
  vlength (force_change v1 (attraction v1 0 0 0 900 0.02)) = 0 /\
  0 < vlength (force_change v2 (attraction v2 0 0 0 900 0.02)).
Proof.
  intros v1 v2. split.
  - assert (Hd : diff_of v1 0 0 0 = mkVec3 0 0 0)
      by (unfold diff_of; simpl; f_equal; ring).
    assert (Hl : vlength (diff_of v1 0 0 0) = 0).
    { rewrite Hd. unfold vlength; simpl.
      replace (0 * 0 + 0 * 0 + 0 * 0) with 0 by ring. apply sqrt_0. }
    rewrite attraction_near.
    2:{ apply bAmCloseEnough_near. lra. }
    unfold attraction_apply. rewrite Hl, Hd, vnormalize_zero.
    unfold force_change, vsub, vlength; simpl.
    match goal with |- sqrt ?a = 0 => replace a with 0 by ring end.
    apply sqrt_0.
  - destruct (attraction_change_xy v2 0 0 0 1 0 0 900 0.02 1) as [Ex Ey];
      try (simpl; lra).
    set (c := force_change v2 (attraction v2 0 0 0 900 0.02)) in *.
    unfold vlength. apply sqrt_lt_R0.
    rewrite Ex.
    pose proof (Rle_0_sqr (vy c)). pose proof (Rle_0_sqr (vz c)).
    unfold Rsqr in *. nra.
Qed.

(** ** Further properties of the [Canvas] simulation *)

Lemma length_vertices_run (s : canvas) (es : list frame_env) :
  length (vertices (run s es)) = length (vertices s).
Proof.
  revert s; induction es as [|e es IH]; intros s; [reflexivity|].
  simpl. rewrite IH. simpl. apply length_map.
Qed.

Lemma vertices_boot (ww wh : R) (random : nat -> R) :
  vertices (boot ww wh random) = map (boot_vertex ww wh random) (seq 0 defaults_len).
Proof. reflexivity. Qed.

(** The particle set is never resized: after any number of frames from
    [boot] it still has [defaults.len] = 10000 vertices. *)
Theorem run_keeps_vertex_count (ww wh : R) (random : nat -> R)
  (es : list frame_env) :
  length (vertices (run (boot ww wh random) es)) = 10000%nat.
Proof.
  rewrite length_vertices_run, vertices_boot, length_map, length_seq.
  reflexivity.
Qed.

Lemma vertexUpdate_friction_mass (ph : phase) (ww wh : R) (v : vertex)
  (p : vec3) (dt : R) :
  friction (vertexUpdate ph ww wh v p dt) = friction v /\
  mass (vertexUpdate ph ww wh v p dt) = mass v.
Proof.
  unfold vertexUpdate.
  destruct (apply_phase_same ph (set_force v (recombine_force v dt)) p)
    as (_ & _ & _ & _ & Hf & Hm).
  unfold wrap, integrate; simpl. rewrite Hf, Hm. split; reflexivity.
Qed.

(** Friction and mass are per-particle constants: after any number of
    frames from [boot], every vertex has friction 0.01 and mass 1. *)
Theorem run_keeps_friction_mass (ww wh : R) (random : nat -> R)
  (es : list frame_env) :
  Forall (fun v => friction v = 0.01 /\ mass v = 1.0)
         (vertices (run (boot ww wh random) es)).
Proof.
  assert (H : forall s, Forall (fun v => friction v = 0.01 /\ mass v = 1.0) (vertices s) ->
              Forall (fun v => friction v = 0.01 /\ mass v = 1.0) (vertices (run s es))).
  { induction es as [|e es IH]; intros s Hs; [exact Hs|].
    simpl. apply IH. simpl. apply Forall_map.
    eapply Forall_impl; [|exact Hs]. intros v [Hf Hm].
    destruct (vertexUpdate_friction_mass (forcePhase s) (env_ww e) (env_wh e) v
      (posOfForce_at (num_of (tick s) + clockDelta e * 0.1 * deltaTime e)
         (env_ww e) (env_wh e) (deltaTime e)) (deltaTime e)) as [E1 E2].
    rewrite E1, E2. split; assumption. }
  apply H. rewrite vertices_boot. apply Forall_map, Forall_forall.
  intros i _. split; reflexivity.
Qed.

Lemma Rabs_cos_le_1 (a : R) : Rabs (cos a) <= 1.
Proof. apply Rabs_le. apply COS_bound. Qed.

Lemma Rabs_sin_le_1 (a : R) : Rabs (sin a) <= 1.
Proof. apply Rabs_le. apply SIN_bound. Qed.

(** The attractor stays in the plane [z = 0]; during the warm-up
    ([t < 1]) it is within [50 * |deltaTime|] of the origin on each axis,
    and afterwards within [|ww| / 2 * |deltaTime|] on x and
    [|wh| / 2 * |deltaTime|] on y. *)
Theorem posOfForce_bounds (t ww wh dt : R) :
  let p := posOfForce_at t ww wh dt in
  vz p = 0 /\
  (t < 1 -> Rabs (vx p) <= 50 * Rabs dt /\ Rabs (vy p) <= 50 * Rabs dt) /\
  (1 <= t -> Rabs (vx p) <= Rabs ww / 2 * Rabs dt /\
             Rabs (vy p) <= Rabs wh / 2 * Rabs dt).
Proof.
  intros p. unfold p, posOfForce_at.
  pose proof (Rabs_pos dt). pose proof (Rabs_pos ww). pose proof (Rabs_pos wh).
  destruct (Rlt_dec t 1) as [Ht|Ht]; simpl.
  - split; [reflexivity|]. split; [|intros; lra].
    intros _. rewrite !Rabs_mult.
    pose proof (Rabs_cos_le_1 (t * defaults_speed_horizontal)).
    pose proof (Rabs_sin_le_1 (t * defaults_speed_vertical)).
    pose proof (Rabs_pos (cos (t * defaults_speed_horizontal))).
    pose proof (Rabs_pos (sin (t * defaults_speed_vertical))).
    replace (Rabs 50) with 50 by (symmetry; apply Rabs_right; lra).
    split; nra.
  - split; [reflexivity|]. split; [intros; lra|].
    intros _. rewrite !Rabs_mult.
    pose proof (Rabs_cos_le_1 (t * defaults_speed_horizontal)).
    pose proof (Rabs_sin_le_1 (t * defaults_speed_vertical)).
    pose proof (Rabs_pos (cos (t * defaults_speed_horizontal))).
    pose proof (Rabs_pos (sin (t * defaults_speed_vertical))).
    replace (Rabs (-0.5)) with (1 / 2) by (symmetry; rewrite Rabs_left; lra).
    replace (Rabs 0.5) with (1 / 2) by (symmetry; rewrite Rabs_right; lra).
    pose proof (Rmult_le_pos _ _ (Rabs_pos ww) (Rabs_pos dt)).
    pose proof (Rmult_le_pos _ _ (Rabs_pos wh) (Rabs_pos dt)).
    split; nra.
Qed.

Lemma tick_run_mono (s : canvas) (es : list frame_env) :
  Forall (fun e => 0 <= clockDelta e /\ 0 <= deltaTime e) es ->
  num_of (tick s) <= num_of (tick (run s es)).
Proof.
  revert s; induction es as [|e es IH]; intros s Hes; simpl; [lra|].
  inversion Hes as [|? ? [Hc Hd] Hrest]; subst.
  eapply Rle_trans; [|apply IH; exact Hrest].
  rewrite tick_update. simpl.
  assert (0 <= clockDelta e * 0.1 * deltaTime e)
    by (apply Rmult_le_pos; [apply Rmult_le_pos|]; lra).
  lra.
Qed.

(** The warm-up is left for good: while clock deltas and [deltaTime]s are
    non-negative, once the accumulator has reached 1 every later frame
    places the attractor with the window-scaled formula. *)
Theorem warmup_left_for_good (s : canvas) (es : list frame_env) (e : frame_env)
  (Hes : Forall (fun e => 0 <= clockDelta e /\ 0 <= deltaTime e) es)
  (Hs : 1 <= num_of (tick s))
  (Hc : 0 <= clockDelta e) (Hd : 0 <= deltaTime e) :
  let t := num_of (tick (run s es)) + clockDelta e * 0.1 * deltaTime e in
  1 <= t /\
  posOfForce (update e (run s es)) =
  mkVec3 (cos (t * defaults_speed_horizontal) * env_ww e * -0.5 * deltaTime e)
         (sin (t * defaults_speed_vertical) * env_wh e * 0.5 * deltaTime e) 0.
Proof.
  intros t.
  assert (Ht : 1 <= t).
  { unfold t. pose proof (tick_run_mono s es Hes).
    assert (0 <= clockDelta e * 0.1 * deltaTime e)
      by (apply Rmult_le_pos; [apply Rmult_le_pos|]; lra).
    lra. }
  split; [exact Ht|].
  simpl. fold t. unfold posOfForce_at.
  destruct (Rlt_dec t 1); [lra|reflexivity].
Qed.

Lemma warmup_left_for_good_witness :
  let s := mkCanvas [] vzero (Some 1) attraction_phase 1 in
  let e := mkEnv 1 1 1000 1000 in
  let t := num_of (tick (run s [])) + clockDelta e * 0.1 * deltaTime e in
  1 <= t /\
  posOfForce (update e (run s [])) =
  mkVec3 (cos (t * defaults_speed_horizontal) * env_ww e * -0.5 * deltaTime e)
         (sin (t * defaults_speed_vertical) * env_wh e * 0.5 * deltaTime e) 0.
Proof.
  intros s e t.
  apply (warmup_left_for_good s [] e).
  - constructor.
  - simpl; lra.
  - simpl; lra.
  - simpl; lra.
Defined.

(** A helper whose center is exactly the position of a vertex with no
    accumulated force leaves the vertex as it is (the zero difference
    normalises to zero). *)
Lemma attraction_at_center (v : vertex) (x y z r s : R) :
  force v = vzero -> px v - x = 0 -> py v - y = 0 -> pz v - z = 0 ->
  attraction v x y z r s = v.
Proof.
  intros Hf Hx Hy Hz. unfold attraction.
  destruct (bAmCloseEnough _ _); [|reflexivity].
  unfold attraction_apply, diff_of. rewrite Hx, Hy, Hz, vnormalize_zero, Hf.
  destruct v as [a b c u f fr m]; simpl in *; subst f.
  unfold set_force, vzero; simpl. f_equal. f_equal; ring.
Qed.

Lemma repulsion_at_center (v : vertex) (x y z r s : R) :
  force v = vzero -> px v - x = 0 -> py v - y = 0 -> pz v - z = 0 ->
  repulsion v x y z r s = v.
Proof.
  intros Hf Hx Hy Hz. unfold repulsion.
  destruct (bAmCloseEnough _ _); [|reflexivity].
  unfold repulsion_apply, diff_of. rewrite Hx, Hy, Hz, vnormalize_zero, Hf.
  destruct v as [a b c u f fr m]; simpl in *; subst f.
  unfold set_force, vzero; simpl. f_equal. f_equal; ring.
Qed.

(** With the attractor at the origin, a vertex at rest at the origin with
    no accumulated force stays exactly as it is, in either phase and for
    any [deltaTime]. *)
Theorem rest_at_origin_stays (ph : phase) (ww wh dt fr m : R)
  (Hw : 0 <= ww) (Hh : 0 <= wh) :
  vertexUpdate ph ww wh (mkVertex 0 0 0 vzero vzero fr m) vzero dt =
  mkVertex 0 0 0 vzero vzero fr m.
Proof.
  unfold vertexUpdate.
  assert (H0 : set_force (mkVertex 0 0 0 vzero vzero fr m)
                 (recombine_force (mkVertex 0 0 0 vzero vzero fr m) dt) =
               mkVertex 0 0 0 vzero vzero fr m).
  { unfold set_force, recombine_force, vzero; simpl. f_equal. f_equal; ring. }
  rewrite H0.
  assert (H1 : apply_phase ph (mkVertex 0 0 0 vzero vzero fr m) vzero =
               mkVertex 0 0 0 vzero vzero fr m).
  { destruct ph; simpl;
      rewrite ?attraction_at_center, ?repulsion_at_center;
      try reflexivity; simpl; ring. }
  rewrite H1.
  unfold integrate, wrap, defaults_depth, vzero; simpl.
  repeat match goal with
  | |- context [Rgt_dec ?a ?b] => destruct (Rgt_dec a b)
  | |- context [Rlt_dec ?a ?b] => destruct (Rlt_dec a b)
  end; try lra.
  f_equal; try f_equal; ring.
Qed.

Lemma rest_at_origin_stays_witness :
  vertexUpdate repulsion_phase 800 600 (mkVertex 0 0 0 vzero vzero 0.01 1)
    vzero 1 = mkVertex 0 0 0 vzero vzero 0.01 1.
Proof. apply rest_at_origin_stays; lra. Defined.

(** Out of reach of both helper calls of the current phase, a vertex gets
    no attraction or repulsion: [_vertexUpdate] only damps its force and
    integrates. *)
Theorem beyond_reach_only_damped (ph : phase) (ww wh : R) (v : vertex)
  (p : vec3) (dt : R) (Hfar : beyond_reach ph v p) :
  vertexUpdate ph ww wh v p dt =
  wrap ww wh (integrate (set_force v (recombine_force v dt)) dt).
Proof.
  unfold vertexUpdate. f_equal. f_equal.
  destruct ph; destruct Hfar as [H1 H2]; simpl.
  - rewrite attraction_far by (try lra; exact H1).
    rewrite repulsion_far by (try lra; exact H2). reflexivity.
  - rewrite attraction_far by (try lra; exact H1).
    rewrite repulsion_far by (try lra; exact H2). reflexivity.
Qed.

Lemma beyond_reach_only_damped_witness :
  vertexUpdate attraction_phase 1000 1000 (rest_vertex 1001 0) (mkVec3 50 0 0) 1 =
  wrap 1000 1000 (integrate (set_force (rest_vertex 1001 0)
                    (recombine_force (rest_vertex 1001 0) 1)) 1).
Proof.
  apply beyond_reach_only_damped. simpl. split.
  - unfold diff_of; simpl. replace (0 - 0) with 0 by ring.
    rewrite vlength_axis; lra.
  - unfold diff_of; simpl. replace (0 - 0 * 0.5) with 0 by ring.
    rewrite vlength_axis; lra.
Defined.

(** A frame with [deltaTime = 0] moves nothing: a vertex inside the wrap
    bounds keeps its position and velocity (only its force changes). *)
Theorem zero_delta_freezes (ph : phase) (ww wh : R) (v : vertex) (p : vec3)
  (Hx : - ww <= px v <= ww) (Hy : - wh <= py v <= wh) (Hz : pz v = 0) :
  let w := vertexUpdate ph ww wh v p 0 in
  px w = px v /\ py w = py v /\ pz w = pz v /\ velocity w = velocity v.
Proof.
  intros w. unfold w, vertexUpdate.
  destruct (apply_phase_same ph (set_force v (recombine_force v 0)) p)
    as (E1 & E2 & E3 & E4 & _ & _).
  set (v1 := apply_phase ph (set_force v (recombine_force v 0)) p) in *.
  simpl in E1, E2, E3, E4.
  unfold wrap, integrate, defaults_depth; simpl.
  rewrite E1, E2, E3, E4.
  repeat match goal with
  | |- context [Rgt_dec ?a ?b] => destruct (Rgt_dec a b)
  | |- context [Rlt_dec ?a ?b] => destruct (Rlt_dec a b)
  end; try lra.
  destruct (velocity v) as [a b c]; simpl.
  repeat split; try f_equal; ring.
Qed.

Lemma zero_delta_freezes_witness :
  let w := vertexUpdate attraction_phase 1000 1000 (rest_vertex 10 20)
             (mkVec3 50 0 0) 0 in
  px w = 10 /\ py w = 20 /\ pz w = 0 /\ velocity w = vzero.
Proof.
  apply (zero_delta_freezes attraction_phase 1000 1000 (rest_vertex 10 20));
    simpl; lra.
Defined.

(** [boot] places every vertex inside the wrap bounds: with
    [Math.random()] in [[0, 1]], [-ww <= x <= ww], [-wh <= y <= wh] and
    [z = 0]. *)
Theorem boot_within_window (ww wh : R) (random : nat -> R)
  (Hw : 0 <= ww) (Hh : 0 <= wh) (Hr : forall k, 0 <= random k <= 1) :
  Forall (fun v => - ww <= px v <= ww /\ - wh <= py v <= wh /\ pz v = 0)
         (vertices (boot ww wh random)).
Proof.
  rewrite vertices_boot. apply Forall_map, Forall_forall. intros i _.
  unfold boot_vertex, randFloat, defaults_depth; cbn [px py pz].
  pose proof (Hr (3 * i)%nat). pose proof (Hr (3 * i + 1)%nat).
  repeat split; try nra; ring.
Qed.

Lemma boot_within_window_witness :
  Forall (fun v => - 800 <= px v <= 800 /\ - 600 <= py v <= 600 /\ pz v = 0)
         (vertices (boot 800 600 (fun _ => 1 / 2))).
Proof. apply boot_within_window; intros; lra. Defined.

(** The resize reaction does nothing before [boot] has made the renderer;
    afterwards, with the 60 degree field of view of [boot], it sets the
    aspect to [ww / wh] and the camera distance to [centerY * sqrt 3], the
    distance at which the visible half-height at [z = 0] is [centerY]. *)
Theorem on_resize_fits_height (ww0 wh0 ww wh centerY : R) :
  on_resize None ww wh centerY = None /\
  match on_resize (Some (boot_camera ww0 wh0)) ww wh centerY with
  | None => False
  | Some c =>
      cam_aspect c = ww / wh /\ cam_z c = centerY * sqrt 3 /\
      cam_z c * tan (cam_fov c * PI / 180 * 0.5) = centerY
  end.
Proof.
  split; [reflexivity|]. simpl.
  replace (60 * PI / 180 * 0.5) with (PI / 6) by lra.
  rewrite tan_PI6.
  assert (H3 : 0 < sqrt 3) by (apply sqrt_lt_R0; lra).
  split; [reflexivity|]. split; field; lra.
Qed.

(** ** Properties of the [Particle] group *)

Lemma bounce_bounds (hi c u : R) : 0 <= hi -> 0 <= fst (bounce hi c u) <= hi.
Proof.
  intros Hhi. unfold bounce.
  destruct (Rgt_dec c hi); simpl;
  match goal with |- context [Rlt_dec ?a ?b] => destruct (Rlt_dec a b) end;
  simpl; lra.
Qed.

(** One axis of [Particle._update]: a coordinate above the window size is
    clamped to it, one below 0 is clamped to 0, and each clamp reverses the
    velocity component (a bounce, keeping the speed); a coordinate inside is
    left with its velocity. *)
Theorem bounce_reflects (hi c u : R) (Hhi : 0 <= hi) :
  (hi < c -> bounce hi c u = (hi, - u)) /\
  (c < 0 -> bounce hi c u = (0, - u)) /\
  (0 <= c <= hi -> bounce hi c u = (c, u)) /\
  Rabs (snd (bounce hi c u)) = Rabs u.
Proof.
  unfold bounce.
  destruct (Rgt_dec c hi); simpl;
  match goal with |- context [Rlt_dec ?a ?b] => destruct (Rlt_dec a b) end;
  simpl; repeat split; intros; try lra;
  try (f_equal; ring); try reflexivity.
  all: first
    [ replace (u * -1) with (- u) by ring; apply Rabs_Ropp
    | replace (u * -1 * -1) with u by ring; reflexivity ].
Qed.

Lemma bounce_reflects_witness :
  bounce 800 801 3 = (800, - 3) /\ Rabs (snd (bounce 800 801 3)) = Rabs 3.
Proof.
  destruct (bounce_reflects 800 801 3) as (H1 & _ & _ & H4); [lra|].
  split; [apply H1; lra | exact H4].
Defined.

(** After [Particle._update] every particle lies inside the window:
    [0 <= x <= ww] and [0 <= y <= wh]. *)
Theorem particle_update_within_window (o : particle_options) (ww wh : R)
  (g : pgroup) (q : pparticle)
  (Hw : 0 <= ww) (Hh : 0 <= wh)
  (Hin : In q (pg_particles (particle_update o ww wh g))) :
  0 <= vx (pp_pos q) <= ww /\ 0 <= vy (pp_pos q) <= wh.
Proof.
  simpl in Hin. apply in_map_iff in Hin. destruct Hin as [q0 [<- _]].
  unfold particle_step.
  destruct (updatePos _ _ _) as [pos u].
  pose proof (bounce_bounds ww (vx pos) (vx u) Hw).
  pose proof (bounce_bounds wh (vy pos) (vy u) Hh).
  destruct (bounce ww (vx pos) (vx u)) as [x ux].
  destruct (bounce wh (vy pos) (vy u)) as [y uy].
  simpl in *. split; assumption.
Qed.

Lemma particle_update_within_window_witness :
  let g := mkPGroup [mkPParticle (mkVec3 5000 (-3) 0) vzero vzero] 0 in
  let q := particle_step 0.01 800 600
             (mkPParticle (mkVec3 5000 (-3) 0) vzero vzero) in
  0 <= vx (pp_pos q) <= 800 /\ 0 <= vy (pp_pos q) <= 600.
Proof.
  intros g q.
  apply (particle_update_within_window particle_defaults 800 600 g q); try lra.
  simpl. left. reflexivity.
Defined.

(** [Particle._update] is planar: it never touches the z position, the z
    velocity or the z force; and the force it leaves is
    [(- vx * friction, -0.5 - vy * friction)] from the velocity before the
    frame, so the force accumulated in earlier frames has no effect on x
    and y. *)
Theorem particle_step_planar (fr ww wh : R) (q : pparticle) :
  let q' := particle_step fr ww wh q in
  vz (pp_pos q') = vz (pp_pos q) /\
  vz (pp_vel q') = vz (pp_vel q) /\
  vz (pp_force q') = vz (pp_force q) /\
  vx (pp_force q') = - (vx (pp_vel q) * fr) /\
  vy (pp_force q') = -0.5 - vy (pp_vel q) * fr.
Proof.
  intros q'. unfold q', particle_step, updatePos, addForce, resetForce, updateForce.
  cbn [vx vy vz].
  destruct (bounce ww _ _) as [x ux]. destruct (bounce wh _ _) as [y uy].
  cbn [pp_pos pp_vel pp_force vx vy vz]. repeat split; ring.
Qed.

(** Two particles that differ only in the x and y of their force are
    moved identically by a frame of [Particle._update]. *)
Theorem particle_step_forgets_force (fr ww wh : R) (q1 q2 : pparticle)
  (Hp : pp_pos q1 = pp_pos q2) (Hv : pp_vel q1 = pp_vel q2)
  (Hf : vz (pp_force q1) = vz (pp_force q2)) :
  particle_step fr ww wh q1 = particle_step fr ww wh q2.
Proof.
  unfold particle_step, resetForce. rewrite Hp, Hv, Hf. reflexivity.
Qed.

Lemma particle_step_forgets_force_witness :
  particle_step 0.01 800 600 (mkPParticle (mkVec3 1 2 0) (mkVec3 3 4 0) (mkVec3 7 8 0)) =
  particle_step 0.01 800 600 (mkPParticle (mkVec3 1 2 0) (mkVec3 3 4 0) vzero).
Proof. apply particle_step_forgets_force; reflexivity. Defined.

Lemma vlength_polar (r len : R) :
  0 <= len -> vlength (mkVec3 (cos r * len) (sin r * len) 0) = len.
Proof.
  intros Hl. unfold vlength; cbn [vx vy vz].
  pose proof (sin2_cos2 r) as H. unfold Rsqr in H.
  replace (cos r * len * (cos r * len) + sin r * len * (sin r * len) + 0 * 0)
    with (len * len * (sin r * sin r + cos r * cos r)) by ring.
  rewrite H, Rmult_1_r. apply sqrt_square; exact Hl.
Qed.

(** [Particle.setup] creates [len] particles; with [Math.random()] in
    [[0, 1)], each starts inside [[0, ww] x [0, wh] x [-depth, depth]],
    moving in the plane at a speed below 20, with no force. *)
Theorem particle_setup_initial (o : particle_options) (ww wh : R)
  (random : nat -> R)
  (Hw : 0 <= ww) (Hh : 0 <= wh) (Hd : 0 <= opt_depth o)
  (Hr : forall k, 0 <= random k < 1) :
  let g := particle_setup o ww wh random in
  length (pg_particles g) = opt_len o /\
  Forall (fun q =>
    0 <= vx (pp_pos q) <= ww /\ 0 <= vy (pp_pos q) <= wh /\
    - opt_depth o <= vz (pp_pos q) <= opt_depth o /\
    vz (pp_vel q) = 0 /\ vlength (pp_vel q) < 20 /\ pp_force q = vzero)
    (pg_particles g).
Proof.
  intros g. split.
  - unfold g, particle_setup. cbn [pg_particles].
    rewrite length_map, length_seq. reflexivity.
  - unfold g, particle_setup. cbn [pg_particles].
    apply Forall_map, Forall_forall. intros i _.
    unfold particle_setup_one, randFloat. cbn [pp_pos pp_vel pp_force vx vy vz].
    pose proof (Hr (5 * i)%nat). pose proof (Hr (5 * i + 1)%nat).
    pose proof (Hr (5 * i + 2)%nat). pose proof (Hr (5 * i + 3)%nat).
    rewrite vlength_polar by nra.
    repeat split; try reflexivity; nra.
Qed.

Lemma particle_setup_initial_witness :
  let g := particle_setup particle_defaults 800 600 (fun _ => 1 / 2) in
  length (pg_particles g) = opt_len particle_defaults /\
  Forall (fun q =>
    0 <= vx (pp_pos q) <= 800 /\ 0 <= vy (pp_pos q) <= 600 /\
    - opt_depth particle_defaults <= vz (pp_pos q) <= opt_depth particle_defaults /\
    vz (pp_vel q) = 0 /\ vlength (pp_vel q) < 20 /\ pp_force q = vzero)
    (pg_particles g).
Proof.
  apply particle_setup_initial; try (intros; lra).
  unfold particle_defaults; cbn [opt_depth]; lra.
Defined.
